(** * EnclaveFi: the EncryptedStaking ledger

    A shallow embedding of the [EncryptedStaking] contract and of the
    [mintEncrypted] entry point of [contracts/MockUSDT.sol].

    Solidity integers are [Z] with their truncations written out, storage
    is an explicit [World] threaded through a state-and-error monad, and a
    reverted external call restores the world it started from.  The FHEVM
    coprocessor is outside the repository: ciphertext handles are modelled
    as the expression that produced them, and the plaintext a handle
    decrypts to is a function of that expression in the fixed-width
    unsigned domain of its type. *)

From Stdlib Require Import ZArith List Bool Lia.
Import ListNotations.
Open Scope Z_scope.

(** ** Machine integers *)

Definition address := Z.

Definition uint128_max : Z := 2 ^ 128 - 1.

(** [uint64(x)] and [uint128(x)]: explicit narrowing conversions. *)
Definition uint64 (x : Z) : Z := x mod 2 ^ 64.
Definition uint128 (x : Z) : Z := x mod 2 ^ 128.

(** ** Confidential values *)

Inductive FheType := Uint64 | Uint128.

Definition width (t : FheType) : Z :=
  match t with Uint64 => 64 | Uint128 => 128 end.

(** A handle is [bytes32]; the zero handle is the uninitialized value.
    Every other handle names the coprocessor computation it results from:
    a trivial encryption, an input encrypted off chain, an arithmetic
    operation at a result type, or a cast. *)
Inductive handle :=
| HNull
| HTrivial (t : FheType) (v : Z)
| HInput (t : FheType) (v : Z) (nonce : Z)
| HAdd (t : FheType) (a b : handle)
| HSub (t : FheType) (a b : handle)
| HMul (t : FheType) (a : handle) (s : Z)
| HDiv (t : FheType) (a : handle) (s : Z)
| HCast (a : handle) (t : FheType).

Definition euint64 := handle.
Definition euint128 := handle.

Definition wrap (t : FheType) (x : Z) : Z := x mod 2 ^ width t.

(** The plaintext behind a handle.  Arithmetic is unchecked and wraps at
    the width of the result type; division is floor division. *)
Fixpoint plain (h : handle) : Z :=
  match h with
  | HNull => 0
  | HTrivial t v => wrap t v
  | HInput t v _ => wrap t v
  | HAdd t a b => wrap t (plain a + plain b)
  | HSub t a b => wrap t (plain a - plain b)
  | HMul t a s => wrap t (plain a * s)
  | HDiv t a s => wrap t (plain a / s)
  | HCast a t => wrap t (plain a)
  end.

(** ** The access-control list of the coprocessor *)

Record ACL := mkACL {
  persisted : list (handle * address);
  publicly : list handle
}.

Definition ACL_empty : ACL := mkACL [] [].

Definition isAllowed (h : handle) (a : address) (acl : ACL) : Prop :=
  In (h, a) (persisted acl).

Definition isPubliclyDecryptable (h : handle) (acl : ACL) : Prop :=
  In h (publicly acl).

(** ** The part of [FHE.sol] the ledger calls

    The FHEVM library is not part of the repository.  Its operations are
    modelled on the coprocessor interface the ledger consumes: trivial
    encryption, casts between widths, [add]/[sub]/[mul]/[div] on
    [euint128], [isInitialized], and the grants of the access-control
    list.  An arithmetic operation replaces an uninitialized operand by an
    encrypted zero and always returns an initialized handle. *)

Module FHE.

Definition isInitialized (h : handle) : bool :=
  match h with HNull => false | _ => true end.

(** [FHE.asEuint128(uint128)]: trivial encryption of a plaintext. *)
Definition asEuint128 (v : Z) : euint128 := HTrivial Uint128 v.

(** [FHE.asEuint128(euint64)] and [FHE.asEuint64(euint128)]: casts. *)
Definition asEuint128_e (h : euint64) : euint128 := HCast h Uint128.
Definition asEuint64_e (h : euint128) : euint64 := HCast h Uint64.

(** An uninitialized operand stands for an encrypted zero. *)
Definition operand (h : euint128) : euint128 :=
  if isInitialized h then h else asEuint128 0.

(** The [euint128] overloads of the arithmetic; [mul] and [div] take a
    plaintext scalar. *)
Definition add (a b : euint128) : euint128 :=
  HAdd Uint128 (operand a) (operand b).
Definition sub (a b : euint128) : euint128 :=
  HSub Uint128 (operand a) (operand b).
Definition mul (a : euint128) (s : Z) : euint128 :=
  HMul Uint128 (operand a) s.
Definition div (a : euint128) (s : Z) : euint128 :=
  HDiv Uint128 (operand a) s.

Definition toBytes32 (h : handle) : handle := h.

Definition allow (h : handle) (a : address) (acl : ACL) : ACL :=
  mkACL ((h, a) :: persisted acl) (publicly acl).

Definition makePubliclyDecryptable (h : handle) (acl : ACL) : ACL :=
  mkACL (persisted acl) (h :: publicly acl).

End FHE.

(** ** Storage of the ledger *)

Record StakeInfo := mkStakeInfo {
  ethStake : euint128;
  musdtStake : euint128;
  pendingRewards : euint128;
  lastUpdated : Z
}.

(** The value a Solidity mapping holds at a key never written. *)
Definition StakeInfo_zero : StakeInfo := mkStakeInfo HNull HNull HNull 0.

Inductive Event :=
| EthStaked (user : address) (amount : Z) (newBalance : handle)
| MusdtStaked (user : address) (encryptedAmount newBalance : handle)
| EthWithdrawn (user : address) (amount : Z) (remainingBalance : handle)
| RewardsClaimed (user : address) (encryptedAmount : handle)
| RewardsSynced (user : address) (pending : handle) (timestamp : Z).

Inductive Error :=
| InvalidAmount
| NoRewardsAvailable
| TransferFailed
| Unauthorized
| ArithmeticPanic
| ExternalRevert.

Inductive Result (A : Type) :=
| Ok (a : A)
| Revert (e : Error).
Arguments Ok {A} a.
Arguments Revert {A} e.

Definition SECONDS_PER_DAY : Z := 86400.
Definition PERCENT_DENOMINATOR : Z := 100.

Definition bytes := list Z.

(** [abi.decode(data, (uint256))]: the first 32-byte word, big endian;
    shorter data reverts. *)
Definition be_word (bs : list Z) : Z :=
  fold_left (fun acc b => acc * 256 + b mod 256) bs 0.

Definition abi_decode_uint256 (data : bytes) : option Z :=
  if (length data <? 32)%nat then None else Some (be_word (firstn 32 data)).

(** ** External collaborators

    The ERC-7984 base contract of the reward token, the input verifier and
    the KMS signature check are not part of the repository; the ledger is
    verified against their interfaces. *)

Class ERC7984 (T : Type) := {
  (** [confidentialTransferFrom(from, to, amount)] called by [caller];
      returns the amount actually transferred, or reverts. *)
  confidentialTransferFrom :
    T -> address -> address -> address -> euint64 -> option (T * euint64);
  (** The internal [_mint(to, amount)]. *)
  _mint : T -> address -> euint64 -> option (T * euint64)
}.

Class Coprocessor := {
  (** [FHE.fromExternal]: the validated input, or a revert. *)
  fromExternal : handle -> bytes -> option euint64;
  (** [FHE.checkSignatures]: [false] stands for its revert. *)
  checkSignatures : list handle -> bytes -> bytes -> bool
}.

(** ** [MockUSDT.sol] *)

Record MockUSDT (T : Type) := mkMockUSDT {
  token_address : address;
  controller : address;
  stakingContract : address;
  erc : T
}.
Arguments mkMockUSDT {T}.
Arguments token_address {T}.
Arguments controller {T}.
Arguments stakingContract {T}.
Arguments erc {T}.

(** The call context of one external call into the ledger. *)
Record Env := mkEnv {
  this : address;
  sender : address;
  timestamp : Z;
  (** whether the caller's account accepts a plain value transfer *)
  accepts_value : bool
}.

Record World (T : Type) := mkWorld {
  stakes : address -> StakeInfo;
  acl : ACL;
  balance : Z;
  musdt : MockUSDT T;
  events : list Event;
  (** history variable: every handle stored into a position, newest first *)
  written : list (address * handle)
}.
Arguments mkWorld {T}.
Arguments stakes {T}.
Arguments acl {T}.
Arguments balance {T}.
Arguments musdt {T}.
Arguments events {T}.
Arguments written {T}.

Definition update (m : address -> StakeInfo) (k : address) (v : StakeInfo)
  : address -> StakeInfo :=
  fun a => if a =? k then v else m a.

Section Ledger.

Context {T : Type} {Token : ERC7984 T} {Cop : Coprocessor}.

(** *** The monad of contract code: state and revert *)

Definition M (A : Type) : Type := World T -> Result A * World T.

Definition ret {A} (a : A) : M A := fun w => (Ok a, w).

Definition bind {A B} (m : M A) (k : A -> M B) : M B :=
  fun w =>
    match m w with
    | (Ok a, w') => k a w'
    | (Revert e, w') => (Revert e, w')
    end.

Definition revert {A} (e : Error) : M A := fun w => (Revert e, w).

Notation "x <- m ;; k" := (bind m (fun x => k))
  (at level 61, m at next level, right associativity).
Notation "m ;;; k" := (bind m (fun _ => k))
  (at level 61, right associativity).

(** [StakeInfo storage info = stakes[user]]: reads and writes go through. *)
Definition load (user : address) : M StakeInfo :=
  fun w => (Ok (stakes w user), w).

Definition store (user : address) (f : StakeInfo -> StakeInfo)
    (log : list (address * handle)) : M unit :=
  fun w =>
    (Ok tt, mkWorld (update (stakes w) user (f (stakes w user)))
                    (acl w) (balance w) (musdt w) (events w)
                    (log ++ written w)).

Definition set_ethStake (user : address) (h : euint128) : M unit :=
  store user
    (fun i => mkStakeInfo h (musdtStake i) (pendingRewards i) (lastUpdated i))
    [(user, h)].

Definition set_musdtStake (user : address) (h : euint128) : M unit :=
  store user
    (fun i => mkStakeInfo (ethStake i) h (pendingRewards i) (lastUpdated i))
    [(user, h)].

Definition set_pendingRewards (user : address) (h : euint128) : M unit :=
  store user
    (fun i => mkStakeInfo (ethStake i) (musdtStake i) h (lastUpdated i))
    [(user, h)].

Definition set_lastUpdated (user : address) (t : Z) : M unit :=
  store user
    (fun i => mkStakeInfo (ethStake i) (musdtStake i) (pendingRewards i) t)
    [].

Definition with_acl (f : ACL -> ACL) : M unit :=
  fun w =>
    (Ok tt, mkWorld (stakes w) (f (acl w)) (balance w) (musdt w) (events w)
                    (written w)).

Definition emit (ev : Event) : M unit :=
  fun w =>
    (Ok tt, mkWorld (stakes w) (acl w) (balance w) (musdt w)
                    (ev :: events w) (written w)).

(** The plain value transfer [msg.sender.call{value: amount}]: succeeds
    when the ledger holds the amount and the recipient accepts it.  The
    recipient is assumed not to call back into the ledger. *)
Definition call_value (e : Env) (amount : Z) : M bool :=
  fun w =>
    if accepts_value e && (amount <=? balance w) then
      (Ok true, mkWorld (stakes w) (acl w) (balance w - amount) (musdt w)
                        (events w) (written w))
    else (Ok false, w).

(** *** [MockUSDT.mintEncrypted], with its [onlyMinter] modifier *)

Definition mintEncrypted (caller to : address) (encryptedAmount : euint64)
    (tk : MockUSDT T) : Result (MockUSDT T * euint64) :=
  if negb (caller =? controller tk) && negb (caller =? stakingContract tk)
  then Revert Unauthorized
  else
    match _mint (erc tk) to encryptedAmount with
    | Some (erc', minted) =>
        Ok (mkMockUSDT (token_address tk) (controller tk)
                       (stakingContract tk) erc', minted)
    | None => Revert ExternalRevert
    end.

Definition musdt_mintEncrypted (e : Env) (to : address) (amount : euint64)
    : M euint64 :=
  fun w =>
    match mintEncrypted (this e) to amount (musdt w) with
    | Ok (tk', minted) =>
        (Ok minted, mkWorld (stakes w) (acl w) (balance w) tk' (events w)
                            (written w))
    | Revert err => (Revert err, w)
    end.

Definition musdt_confidentialTransferFrom (e : Env) (from to : address)
    (amount : euint64) : M euint64 :=
  fun w =>
    match confidentialTransferFrom (erc (musdt w)) (this e) from to amount with
    | Some (erc', transferred) =>
        (Ok transferred,
         mkWorld (stakes w) (acl w) (balance w)
                 (mkMockUSDT (token_address (musdt w)) (controller (musdt w))
                             (stakingContract (musdt w)) erc')
                 (events w) (written w))
    | None => (Revert ExternalRevert, w)
    end.

Definition musdt_address : M address :=
  fun w => (Ok (token_address (musdt w)), w).

(** *** The [EncryptedStaking] contract *)

Definition _shareValue (e : Env) (value : euint128) (user : address)
    (makePublic : bool) : M unit :=
  if negb (FHE.isInitialized value) then ret tt
  else
    with_acl (FHE.allow value (this e)) ;;;
    with_acl (FHE.allow value user) ;;;
    if makePublic then with_acl (FHE.makePubliclyDecryptable value)
    else ret tt.

Definition _accrue (e : Env) (user : address) : M unit :=
  info <- load user ;;
  if lastUpdated info =? 0 then
    set_lastUpdated user (uint64 (timestamp e))
  else if timestamp e <? lastUpdated info then
    revert ArithmeticPanic
  else
    let elapsed := uint64 (timestamp e - lastUpdated info) in
    if elapsed =? 0 then ret tt
    else
      let elapsed := uint64 (elapsed - 1) in
      if elapsed =? 0 then ret tt
      else
        let ethAccrued := FHE.mul (ethStake info) elapsed in
        let ethAccrued := FHE.div ethAccrued SECONDS_PER_DAY in
        let ethAccrued := FHE.div ethAccrued 1000000000000 in
        let musdtInterest :=
          FHE.div (FHE.mul (musdtStake info) elapsed)
                  (SECONDS_PER_DAY * PERCENT_DENOMINATOR) in
        let totalInterest := FHE.add ethAccrued musdtInterest in
        if negb (FHE.isInitialized totalInterest) then
          set_lastUpdated user (uint64 (timestamp e))
        else
          (if FHE.isInitialized (pendingRewards info) then
             set_pendingRewards user
               (FHE.add (pendingRewards info) totalInterest)
           else set_pendingRewards user totalInterest) ;;;
          info <- load user ;;
          _shareValue e (pendingRewards info) user true ;;;
          set_lastUpdated user (uint64 (timestamp e)).

Definition stakeEth (value : Z) (e : Env) : M unit :=
  if (value =? 0) || (value >? uint128_max) then revert InvalidAmount
  else
    _accrue e (sender e) ;;;
    info <- load (sender e) ;;
    let addition := FHE.asEuint128 (uint128 value) in
    set_ethStake (sender e)
      (if FHE.isInitialized (ethStake info)
       then FHE.add (ethStake info) addition else addition) ;;;
    info <- load (sender e) ;;
    _shareValue e (ethStake info) (sender e) true ;;;
    set_lastUpdated (sender e) (uint64 (timestamp e)) ;;;
    info <- load (sender e) ;;
    emit (EthStaked (sender e) value (FHE.toBytes32 (ethStake info))).

Definition stakeMusdt (encryptedAmount : handle) (inputProof : bytes)
    (e : Env) : M unit :=
  _accrue e (sender e) ;;;
  match fromExternal encryptedAmount inputProof with
  | None => revert ExternalRevert
  | Some validatedAmount =>
      with_acl (FHE.allow validatedAmount (this e)) ;;;
      token <- musdt_address ;;
      with_acl (FHE.allow validatedAmount token) ;;;
      transferred <-
        musdt_confidentialTransferFrom e (sender e) (this e) validatedAmount ;;
      let stakeIncrement := FHE.asEuint128_e transferred in
      info <- load (sender e) ;;
      set_musdtStake (sender e)
        (if FHE.isInitialized (musdtStake info)
         then FHE.add (musdtStake info) stakeIncrement else stakeIncrement) ;;;
      info <- load (sender e) ;;
      _shareValue e (musdtStake info) (sender e) true ;;;
      set_lastUpdated (sender e) (uint64 (timestamp e)) ;;;
      info <- load (sender e) ;;
      emit (MusdtStaked (sender e) (FHE.toBytes32 transferred)
                        (FHE.toBytes32 (musdtStake info)))
  end.

Definition withdrawEth (amount : Z) (abiEncodedClearValue : bytes)
    (decryptionProof : bytes) (e : Env) : M unit :=
  if amount =? 0 then revert InvalidAmount
  else
    _accrue e (sender e) ;;;
    info <- load (sender e) ;;
    if negb (FHE.isInitialized (ethStake info)) then revert InvalidAmount
    else
      let handles := [FHE.toBytes32 (ethStake info)] in
      if negb (checkSignatures handles abiEncodedClearValue decryptionProof)
      then revert ExternalRevert
      else
        match abi_decode_uint256 abiEncodedClearValue with
        | None => revert ExternalRevert
        | Some decryptedStake =>
            if (amount >? decryptedStake) || (amount >? uint128_max)
            then revert InvalidAmount
            else
              let amountEncrypted := FHE.asEuint128 amount in
              let remaining := FHE.sub (ethStake info) amountEncrypted in
              set_ethStake (sender e) remaining ;;;
              info <- load (sender e) ;;
              _shareValue e (ethStake info) (sender e) true ;;;
              set_lastUpdated (sender e) (uint64 (timestamp e)) ;;;
              sent <- call_value e amount ;;
              if negb sent then revert TransferFailed
              else
                info <- load (sender e) ;;
                emit (EthWithdrawn (sender e) amount
                                   (FHE.toBytes32 (ethStake info)))
        end.

Definition claimRewards (e : Env) : M unit :=
  _accrue e (sender e) ;;;
  info <- load (sender e) ;;
  if negb (FHE.isInitialized (pendingRewards info))
  then revert NoRewardsAvailable
  else
    let rewards := FHE.asEuint64_e (pendingRewards info) in
    with_acl (FHE.allow rewards (this e)) ;;;
    with_acl (FHE.allow rewards (sender e)) ;;;
    token <- musdt_address ;;
    with_acl (FHE.allow rewards token) ;;;
    set_pendingRewards (sender e) (FHE.asEuint128 0) ;;;
    info <- load (sender e) ;;
    _shareValue e (pendingRewards info) (sender e) true ;;;
    set_lastUpdated (sender e) (uint64 (timestamp e)) ;;;
    _ <- musdt_mintEncrypted e (sender e) rewards ;;
    emit (RewardsClaimed (sender e) (FHE.toBytes32 rewards)).

Definition syncRewards (e : Env) : M euint128 :=
  _accrue e (sender e) ;;;
  info <- load (sender e) ;;
  emit (RewardsSynced (sender e) (FHE.toBytes32 (pendingRewards info))
                      (lastUpdated info)) ;;;
  ret (pendingRewards info).

Definition getPosition (user : address)
    : M (euint128 * euint128 * euint128 * Z) :=
  info <- load user ;;
  ret (ethStake info, musdtStake info, pendingRewards info, lastUpdated info).

Definition getRewardToken : M address := musdt_address.

(** *** External calls

    A call that reverts leaves the world as it was before the call; a
    payable call credits [msg.value] to the ledger on entry. *)

Definition transact {A} (body : M A) : M A :=
  fun w =>
    match body w with
    | (Ok a, w') => (Ok a, w')
    | (Revert err, _) => (Revert err, w)
    end.

Definition credit (value : Z) : M unit :=
  fun w =>
    (Ok tt, mkWorld (stakes w) (acl w) (balance w + value) (musdt w)
                    (events w) (written w)).

Inductive Call :=
| CallStakeEth (value : Z)
| CallStakeMusdt (encryptedAmount : handle) (inputProof : bytes)
| CallWithdrawEth (amount : Z) (abiEncodedClearValue decryptionProof : bytes)
| CallClaimRewards
| CallSyncRewards.

(** The value a mutating call returns ([syncRewards] only). *)
Definition execute (c : Call) (e : Env) : M (option euint128) :=
  transact
    match c with
    | CallStakeEth value =>
        credit value ;;; stakeEth value e ;;; ret None
    | CallStakeMusdt enc proof => stakeMusdt enc proof e ;;; ret None
    | CallWithdrawEth amount clear proof =>
        withdrawEth amount clear proof e ;;; ret None
    | CallClaimRewards => claimRewards e ;;; ret None
    | CallSyncRewards => h <- syncRewards e ;; ret (Some h)
    end.

(** *** Reachable worlds

    The worlds the ledger can be in: a fresh deployment, followed by any
    external calls whose block timestamps never decrease.  The index is the
    timestamp of the latest block. *)

Inductive reachable : Z -> World T -> Prop :=
| reachable_deployed (c : Z) (w : World T) :
    (forall u, stakes w u = StakeInfo_zero) ->
    0 <= c ->
    reachable c w
| reachable_call (c : Z) (w : World T) (call : Call) (e : Env)
    (r : Result (option euint128)) (w' : World T) :
    reachable c w ->
    c <= timestamp e ->
    execute call e w = (r, w') ->
    reachable (timestamp e) w'.

(** *** Vocabulary of the proofs *)

(** What [_accrue] does to the position it is run on (see [accrue_inv]). *)
Definition accrue_position (now : Z) (info : StakeInfo) : StakeInfo :=
  if lastUpdated info =? 0 then
    mkStakeInfo (ethStake info) (musdtStake info) (pendingRewards info)
                (uint64 now)
  else
    let elapsed := uint64 (now - lastUpdated info) in
    if elapsed =? 0 then info
    else
      let elapsed := uint64 (elapsed - 1) in
      if elapsed =? 0 then info
      else
        let totalInterest :=
          FHE.add
            (FHE.div (FHE.div (FHE.mul (ethStake info) elapsed)
                              SECONDS_PER_DAY) 1000000000000)
            (FHE.div (FHE.mul (musdtStake info) elapsed)
                     (SECONDS_PER_DAY * PERCENT_DENOMINATOR)) in
        mkStakeInfo (ethStake info) (musdtStake info)
          (if FHE.isInitialized (pendingRewards info)
           then FHE.add (pendingRewards info) totalInterest
           else totalInterest)
          (uint64 now).

(** A logged write [(user, h)] is shared when [h] is a real ciphertext that
    the ledger and the owner may decrypt and that is publicly decryptable. *)
Definition shared (ledger owner : address) (a : ACL) (x : address * handle)
  : Prop :=
  fst x = owner /\ FHE.isInitialized (snd x) = true /\
  isAllowed (snd x) ledger a /\ isAllowed (snd x) owner a /\
  isPubliclyDecryptable (snd x) a.

(** Grants are only ever added. *)
Definition acl_le (a b : ACL) : Prop :=
  incl (persisted a) (persisted b) /\ incl (publicly a) (publicly b).

(** The effect of a successful [_accrue e u] taking [w] to [w1]. *)
Record accrue_frame (e : Env) (u : address) (w w1 : World T) : Prop := {
  af_position : stakes w1 u = accrue_position (timestamp e) (stakes w u);
  af_others : forall a, a <> u -> stakes w1 a = stakes w a;
  af_balance : balance w1 = balance w;
  af_token : musdt w1 = musdt w;
  af_events : events w1 = events w;
  af_acl : acl_le (acl w) (acl w1);
  af_written :
    exists new,
      written w1 = new ++ written w /\
      Forall (shared (this e) u (acl w1)) new /\
      (pendingRewards (stakes w1 u) = pendingRewards (stakes w u) \/
       In (u, pendingRewards (stakes w1 u)) new)
}.

End Ledger.

(** ** The accrual rule on plaintexts *)

Record Position := mkPosition {
  pos_eth : option Z;
  pos_musdt : option Z;
  pos_pending : option Z;
  pos_lastUpdated : Z
}.

(** What a confidential value decrypts to; nothing when uninitialized. *)
Definition decrypt (h : handle) : option Z :=
  if FHE.isInitialized h then Some (plain h) else None.

Definition view (i : StakeInfo) : Position :=
  mkPosition (decrypt (ethStake i)) (decrypt (musdtStake i))
             (decrypt (pendingRewards i)) (lastUpdated i).

Definition amount_of (o : option Z) : Z :=
  match o with Some v => v | None => 0 end.


(** The same interest in the 128-bit ciphertext domain: the two products
    and the sum wrap. *)
Definition interest_wrapped (eth musdt elapsed : Z) : Z :=
  wrap Uint128
    (wrap Uint128 (eth * (elapsed - 1)) / 86400 / 10 ^ 12
     + wrap Uint128 (musdt * (elapsed - 1)) / (86400 * 100)).

(** [pendingRewards] after the accrual routine, given how the interest is
    computed and how it is added. *)
Definition pending_after (interest : Z -> Z -> Z -> Z) (sum : Z -> Z -> Z)
    (p : Position) (now : Z) : option Z :=
  if pos_lastUpdated p =? 0 then pos_pending p
  else
    let elapsed := now - pos_lastUpdated p in
    if elapsed <=? 1 then pos_pending p
    else
      let i := interest (amount_of (pos_eth p)) (amount_of (pos_musdt p))
                        elapsed in
      match pos_pending p with
      | Some r => Some (sum r i)
      | None => Some i
      end.


Definition pending_wrapped : Position -> Z -> option Z :=
  pending_after interest_wrapped (fun r i => wrap Uint128 (r + i)).

(** ** Reference collaborators, used to run the ledger on concrete inputs *)

Module Reference.

(** Modelled from the spec: the reward-asset collaborator (the ERC-7984
    base of [MockUSDT] is not in the repository).  [confidentialTransferFrom]
    caps the amount actually transferred at the balance of [from] and returns
    it; [_mint] mints that exact encrypted amount into the recipient's
    confidential balance.  Balances are kept as the plaintexts of the
    64-bit confidential balances. *)
Record Balances := mkBalances { entries : list (address * Z) }.

Definition balanceOf (b : Balances) (a : address) : Z :=
  match find (fun p => fst p =? a) (entries b) with
  | Some p => snd p
  | None => 0
  end.

Definition credit_to (b : Balances) (a : address) (v : Z) : Balances :=
  mkBalances ((a, wrap Uint64 (balanceOf b a + v)) :: entries b).

Definition debit_from (b : Balances) (a : address) (v : Z) : Balances :=
  mkBalances ((a, wrap Uint64 (balanceOf b a - v)) :: entries b).

Definition transferFrom (b : Balances) (caller from to : address)
    (amount : euint64) : option (Balances * euint64) :=
  let moved := Z.min (plain amount) (balanceOf b from) in
  Some (credit_to (debit_from b from moved) to moved, HTrivial Uint64 moved).

Definition mint (b : Balances) (to : address) (amount : euint64)
    : option (Balances * euint64) :=
  Some (credit_to b to (plain amount), amount).

#[export] Instance token : ERC7984 Balances :=
  {| confidentialTransferFrom := transferFrom; _mint := mint |}.

(** Modelled from the spec: the coprocessor's [validateExternalInput] and
    [verifyDecryptionProof] (the FHEVM library is not in the repository).
    An external input is accepted with any non-empty proof; a decryption
    proof is accepted when it is non-empty and the encoded plaintext is
    what the single handle decrypts to. *)
Definition validate (h : handle) (proof : bytes) : option euint64 :=
  match proof with
  | [] => None
  | _ :: _ => Some h
  end.

Definition verify (handles : list handle) (clear proof : bytes) : bool :=
  match handles, abi_decode_uint256 clear, proof with
  | [h], Some v, _ :: _ => v =? plain h
  | _, _, _ => false
  end.

#[export] Instance coprocessor : Coprocessor :=
  {| fromExternal := validate; checkSignatures := verify |}.

(** The big-endian 32-byte word of [abi.encode(uint256 v)]. *)
Fixpoint be_bytes (n : nat) (v : Z) : list Z :=
  match n with
  | O => []
  | S n' => be_bytes n' (v / 256) ++ [v mod 256]
  end.

Definition abi_encode_uint256 (v : Z) : bytes := be_bytes 32 v.

(** Deployment as in the repository's deploy script: the token is deployed by
    [deployer], the ledger at [ledger], and the ledger is registered as
    the token's staking contract. *)
Definition ledger : address := 1000.
Definition token_at : address := 2000.
Definition deployer : address := 3000.
Definition alice : address := 4000.

Definition genesis (bal : list (address * Z)) : World Balances :=
  mkWorld (fun _ => StakeInfo_zero) ACL_empty 0
          (mkMockUSDT token_at deployer ledger (mkBalances bal))
          [] [].

Definition at_time (who : address) (t : Z) : Env := mkEnv ledger who t true.

(** Run a sequence of calls, ignoring the ones that revert. *)
Fixpoint run (cs : list (Call * Env)) (w : World Balances) : World Balances :=
  match cs with
  | [] => w
  | (c, e) :: cs' => run cs' (snd (execute c e w))
  end.

Definition pending_of (w : World Balances) (u : address) : Z :=
  plain (pendingRewards (stakes w u)).

Definition no_balances : list (address * Z) := [].

Definition funded (who : address) (v : Z) : list (address * Z) := [(who, v)].

(** A fresh deployment on which [alice] has staked [value] wei at time
    1000, and nothing else has happened. *)
Definition after_stake (value : Z) : World Balances :=
  run [(CallStakeEth value, at_time alice 1000)] (genesis no_balances).

(** A fresh deployment on which [alice], holding [held] token units, has
    asked at time 1000 to stake the encrypted amount [amount]. *)
Definition stake_request (amount : Z) : Call :=
  CallStakeMusdt (HInput Uint64 amount 1) [1].

Definition after_musdt_stake (held amount : Z) : World Balances :=
  run [(stake_request amount, at_time alice 1000)]
      (genesis (funded alice held)).

End Reference.

(** * Properties *)

(** ** Fixed-width arithmetic *)

Lemma wrap_range t x : 0 <= wrap t x < 2 ^ width t.
Proof. unfold wrap. apply Z.mod_pos_bound. destruct t; reflexivity. Qed.

Lemma wrap_small t x : 0 <= x < 2 ^ width t -> wrap t x = x.
Proof. intros. unfold wrap. now apply Z.mod_small. Qed.

Lemma width_le t : 2 ^ width t <= 2 ^ 128.
Proof. destruct t; simpl; lia. Qed.

Lemma plain_range h : 0 <= plain h < 2 ^ 128.
Proof.
  destruct h; simpl;
    try (match goal with
         | |- context [wrap ?t ?x] =>
             pose proof (wrap_range t x); pose proof (width_le t)
         end; lia).
  lia.
Qed.

Lemma uint64_small x : 0 <= x < 2 ^ 64 -> uint64 x = x.
Proof. intros. unfold uint64. now apply Z.mod_small. Qed.

Lemma uint64_range x : 0 <= uint64 x < 2 ^ 64.
Proof. unfold uint64. apply Z.mod_pos_bound. reflexivity. Qed.

Lemma uint64_le x : 0 <= x -> uint64 x <= x.
Proof. intros. unfold uint64. apply Z.mod_le; [assumption | reflexivity]. Qed.

Lemma wrap_add_idemp_r t a b : wrap t (a + wrap t b) = wrap t (a + b).
Proof. unfold wrap. apply Zplus_mod_idemp_r. Qed.

Lemma wrap_div_small x s :
  0 <= x < 2 ^ 128 -> 0 < s -> wrap Uint128 (x / s) = x / s.
Proof.
  intros Hx Hs. apply wrap_small. simpl width. split.
  - apply Z.div_pos; lia.
  - apply Z.le_lt_trans with x; [| lia].
    apply Z.div_le_upper_bound; nia.
Qed.

Lemma plain_operand h : plain (FHE.operand h) = amount_of (decrypt h).
Proof.
  unfold FHE.operand, decrypt. destruct (FHE.isInitialized h); reflexivity.
Qed.

Lemma operand_initialized h : FHE.isInitialized h = true -> FHE.operand h = h.
Proof. unfold FHE.operand. now intros ->. Qed.

Lemma plain_uninitialized h : FHE.isInitialized h = false -> plain h = 0.
Proof. destruct h; simpl; congruence. Qed.

Lemma plain_add a b :
  plain (FHE.add a b)
  = wrap Uint128 (amount_of (decrypt a) + amount_of (decrypt b)).
Proof. unfold FHE.add. simpl. now rewrite !plain_operand. Qed.

Lemma plain_sub a b :
  plain (FHE.sub a b)
  = wrap Uint128 (amount_of (decrypt a) - amount_of (decrypt b)).
Proof. unfold FHE.sub. simpl. now rewrite !plain_operand. Qed.

Lemma plain_mul a s :
  plain (FHE.mul a s) = wrap Uint128 (amount_of (decrypt a) * s).
Proof. unfold FHE.mul. simpl. now rewrite plain_operand. Qed.

Lemma plain_div a s :
  0 < s -> plain (FHE.div a s) = amount_of (decrypt a) / s.
Proof.
  intros Hs. unfold FHE.div. simpl. rewrite <- plain_operand.
  apply wrap_div_small; [apply plain_range | assumption].
Qed.

Lemma plain_asEuint128_e h : plain (FHE.asEuint128_e h) = plain h.
Proof.
  unfold FHE.asEuint128_e. simpl. apply wrap_small. apply plain_range.
Qed.

Lemma plain_asEuint64_e h : plain (FHE.asEuint64_e h) = plain h mod 2 ^ 64.
Proof. reflexivity. Qed.

Lemma decrypt_initialized h :
  FHE.isInitialized h = true -> decrypt h = Some (plain h).
Proof. unfold decrypt. now intros ->. Qed.

Lemma decrypt_uninitialized h :
  FHE.isInitialized h = false -> decrypt h = None.
Proof. unfold decrypt. now intros ->. Qed.

Lemma amount_of_decrypt h : amount_of (decrypt h) = plain h.
Proof.
  unfold decrypt. destruct (FHE.isInitialized h) eqn:Hi; simpl;
    [reflexivity | now rewrite plain_uninitialized].
Qed.

(** ** Storage *)

Lemma update_same m k v : update m k v k = v.
Proof. unfold update. now rewrite Z.eqb_refl. Qed.

Lemma update_other m k v a : a <> k -> update m k v a = m a.
Proof. unfold update. intros. destruct (Z.eqb_spec a k); congruence. Qed.

(** ** The access-control list only grows *)

Lemma acl_le_refl a : acl_le a a.
Proof. split; apply incl_refl. Qed.

Lemma acl_le_trans a b c : acl_le a b -> acl_le b c -> acl_le a c.
Proof. intros [? ?] [? ?]; split; eapply incl_tran; eauto. Qed.

Lemma acl_le_allow a h x : acl_le a (FHE.allow h x a).
Proof. split; cbn; auto using incl_refl, incl_tl. Qed.

Lemma acl_le_public a h : acl_le a (FHE.makePubliclyDecryptable h a).
Proof. split; cbn; auto using incl_refl, incl_tl. Qed.

Lemma shared_mono ledger owner a b x :
  acl_le a b -> shared ledger owner a x -> shared ledger owner b x.
Proof.
  intros [Hp Hq] (? & ? & ? & ? & ?).
  unfold shared, isAllowed, isPubliclyDecryptable in *. auto 10.
Qed.

(** ** Symbolic execution of contract code *)

Arguments uint64 : simpl never.
Arguments uint128 : simpl never.
Arguments wrap : simpl never.
Arguments plain : simpl never.
Arguments accrue_position : simpl never.

(** Split on the innermost conditional the computation is stuck on. *)
Ltac case_cond :=
  match goal with
  | |- context [if ?c then _ else _] =>
      lazymatch c with
      | context [if _ then _ else _] => fail
      | context [match _ with Some _ => _ | None => _ end] => fail
      | _ => destruct c eqn:?
      end
  | |- context [match ?c with Some _ => _ | None => _ end] =>
      lazymatch c with
      | context [if _ then _ else _] => fail
      | context [match _ with Some _ => _ | None => _ end] => fail
      | _ => destruct c as [[? ?]|] eqn:? || destruct c eqn:?
      end
  end.

Ltac norm :=
  repeat (progress (cbn -[update _accrue Z.add Z.sub Z.mul Z.pow];
                    rewrite ?update_same)).

Ltac run := repeat (norm; try case_cond); norm.

Ltac unfold_ops :=
  unfold execute, transact, credit, stakeEth, stakeMusdt, withdrawEth,
    claimRewards, syncRewards, getPosition, _shareValue, musdt_mintEncrypted,
    mintEncrypted, musdt_confidentialTransferFrom, musdt_address, call_value,
    emit, with_acl, set_lastUpdated, set_pendingRewards, set_musdtStake,
    set_ethStake, store, load, bind, ret, revert.

Ltac solve_acl_le :=
  repeat first [ apply acl_le_refl
               | eapply acl_le_trans; [| apply acl_le_allow]
               | eapply acl_le_trans; [| apply acl_le_public] ].

Ltac solve_shared :=
  unfold shared, isAllowed, isPubliclyDecryptable; repeat split; cbn; auto 10.

Section Properties.

Context {T : Type} {Token : ERC7984 T} {Cop : Coprocessor}.

(** ** The accrual routine *)

(** [_accrue] either panics on a timestamp before [lastUpdated], leaving the
    world alone, or succeeds with the effect [accrue_frame] describes. *)
Lemma accrue_inv e u (w : World T) r w1 :
  _accrue e u w = (r, w1) ->
  (r = Revert ArithmeticPanic /\ w1 = w /\
   lastUpdated (stakes w u) <> 0 /\
   timestamp e < lastUpdated (stakes w u)) \/
  (r = Ok tt /\ accrue_frame e u w w1 /\
   (lastUpdated (stakes w u) = 0 \/
    lastUpdated (stakes w u) <= timestamp e)).
Proof.
  unfold _accrue, _shareValue, accrue_position.
  unfold_ops. run; intros Hx; inversion Hx; subst; clear Hx.
  all: try (left; repeat split; lia).
  all: right; split; [reflexivity|]; split; [| lia].
  all: split; norm; auto using acl_le_refl.
  all: try (intros; now rewrite ?update_other by assumption).
  all: try (unfold accrue_position;
            repeat match goal with
                   | H : ?c = _ |- context [?c] => rewrite H
                   end; reflexivity).
  all: try solve_acl_le.
  all: try (exists []; split; [reflexivity |]; split; [constructor | now left]).
  all: eexists (cons _ nil); split; [reflexivity|];
       split; [constructor; [solve_shared | constructor] | right; now left].
Qed.

Ltac accrue_step :=
  match goal with
  | |- context [_accrue ?e ?u ?w] =>
      let H := fresh "Hacc" in
      let r1 := fresh "r" in
      let w1 := fresh "w" in
      destruct (_accrue e u w) as [r1 w1] eqn:H;
      apply accrue_inv in H;
      destruct H as [(-> & -> & ? & ?) | (-> & ? & ?)]
  end.

Ltac exec := unfold_ops; run; try (accrue_step; run).

Lemma accrue_ok e u (w : World T) :
  lastUpdated (stakes w u) = 0 \/ lastUpdated (stakes w u) <= timestamp e ->
  exists w1, _accrue e u w = (Ok tt, w1) /\ accrue_frame e u w w1.
Proof.
  intros Hle. destruct (_accrue e u w) as [r w1] eqn:Hacc.
  destruct (accrue_inv _ _ _ _ _ Hacc) as [(_ & _ & ? & ?) | (-> & ? & _)].
  - lia.
  - eauto.
Qed.

Lemma accrue_position_eth now i :
  ethStake (accrue_position now i) = ethStake i.
Proof. unfold accrue_position. run; reflexivity. Qed.

Lemma accrue_position_musdt now i :
  musdtStake (accrue_position now i) = musdtStake i.
Proof. unfold accrue_position. run; reflexivity. Qed.

Lemma accrue_position_stamp now i :
  lastUpdated (accrue_position now i) = lastUpdated i \/
  lastUpdated (accrue_position now i) = uint64 now.
Proof. unfold accrue_position. run; auto. Qed.

Lemma accrue_position_zero now :
  accrue_position now StakeInfo_zero
  = mkStakeInfo HNull HNull HNull (uint64 now).
Proof. reflexivity. Qed.

(** ** Read access *)

(** C9: [getPosition] returns the four stored fields of the position as
    they are and leaves the whole world unchanged; it runs no accrual and
    does not move [lastUpdated]. *)
Theorem getPosition_reads_verbatim (user : address) (w : World T) :
  getPosition user w =
  (Ok (ethStake (stakes w user), musdtStake (stakes w user),
       pendingRewards (stakes w user), lastUpdated (stakes w user)),
   w).
Proof.
  (* a load of [stakes[user]] followed by a return: no store, no accrual *)
  unfold getPosition, bind, load, ret.
  reflexivity.
Qed.

(** ** Frame of an external call *)

Lemma execute_reverted c e (w : World T) err w' :
  execute c e w = (Revert err, w') -> w' = w.
Proof.
  unfold execute, transact.
  match goal with
  | |- context [match ?b w with _ => _ end] => destruct (b w) as [[a|x] w0]
  end; intros Hx; inversion Hx; reflexivity.
Qed.

Lemma execute_others c e (w : World T) r w' a :
  execute c e w = (r, w') -> a <> sender e -> stakes w' a = stakes w a.
Proof.
  intros Hx Ha. destruct r as [v|err].
  2: { now rewrite (execute_reverted _ _ _ _ _ Hx). }
  revert Hx.
  destruct c; exec; intros Hx; inversion Hx; subst; clear Hx; norm.
  all: rewrite ?update_other by assumption.
  all: match goal with F : accrue_frame _ _ _ _ |- _ =>
         now rewrite (af_others _ _ _ _ F) by assumption end.
Qed.

Lemma execute_stamp c e (w : World T) r w' a :
  execute c e w = (r, w') ->
  lastUpdated (stakes w' a) = lastUpdated (stakes w a) \/
  lastUpdated (stakes w' a) = uint64 (timestamp e).
Proof.
  intros Hx. destruct (Z.eq_dec a (sender e)) as [-> | Ha].
  2: { left. now rewrite (execute_others _ _ _ _ _ _ Hx Ha). }
  destruct r as [v|err].
  2: { left. now rewrite (execute_reverted _ _ _ _ _ Hx). }
  revert Hx.
  destruct c; exec; intros Hx; inversion Hx; subst; clear Hx; norm; auto.
  match goal with F : accrue_frame _ _ _ _ |- _ =>
    rewrite (af_position _ _ _ _ F) end.
  norm. apply accrue_position_stamp.
Qed.

(** Every call but a [syncRewards] stamps the position. *)
Lemma execute_stamps_unless_sync c e (w : World T) v w' :
  execute c e w = (Ok v, w') ->
  c <> CallSyncRewards ->
  lastUpdated (stakes w' (sender e)) = uint64 (timestamp e).
Proof.
  intros Hx Hc; revert Hx.
  destruct c; try congruence; exec; intros Hx; inversion Hx; subst; norm;
    reflexivity.
Qed.

(** ** Permissions *)

(** C7: every confidential value a successful mutating call stores into a
    position is stored into the caller's position, is an initialized
    ciphertext, and when the call returns the ledger and the caller both
    hold a decrypt grant on it and it is publicly decryptable.  The values
    stored are the entries the call adds to the write history, and every
    field of the caller's position that changed holds one of them. *)
Theorem written_values_are_shared (c : Call) (e : Env) (w : World T)
    (v : option euint128) (w' : World T) :
  execute c e w = (Ok v, w') ->
  exists new,
    written w' = new ++ written w /\
    Forall (shared (this e) (sender e) (acl w')) new /\
    (ethStake (stakes w' (sender e)) = ethStake (stakes w (sender e)) \/
     In (sender e, ethStake (stakes w' (sender e))) new) /\
    (musdtStake (stakes w' (sender e)) = musdtStake (stakes w (sender e)) \/
     In (sender e, musdtStake (stakes w' (sender e))) new) /\
    (pendingRewards (stakes w' (sender e))
     = pendingRewards (stakes w (sender e)) \/
     In (sender e, pendingRewards (stakes w' (sender e))) new).
Proof.
  destruct c; exec; intros Hx; inversion Hx; subst; clear Hx.
  all: match goal with F : accrue_frame _ _ _ _ |- _ =>
         destruct (af_written _ _ _ _ F) as (new1 & Hn & Hs & Hp);
         pose proof (af_position _ _ _ _ F) as Hpos;
         pose proof (f_equal ethStake Hpos) as He;
         pose proof (f_equal musdtStake Hpos) as Hm;
         rewrite accrue_position_eth in He;
         rewrite accrue_position_musdt in Hm
       end.
  all: norm; cbn in Hn, Hp, He, Hm; rewrite Hn.
  all: match goal with
       | |- exists n, ?x :: ?y :: ?l ++ ?z = _  /\ _ => exists (x :: y :: l)
       | |- exists n, ?x :: ?l ++ ?z = _  /\ _ => exists (x :: l)
       | |- exists n, ?l ++ ?z = _  /\ _ => exists l
       end.
  all: split; [reflexivity|]; split.
  all: try (repeat (apply Forall_cons; [solve_shared|]);
            eapply Forall_impl; [| exact Hs]; intros x; apply shared_mono;
            norm; solve_acl_le).
  all: rewrite ?He, ?Hm; cbn [In]; intuition auto.
Qed.

(** ** Atomicity *)

(** Bring the facts of the accrual frame into the context, and the
    conditions met on the way into a form [congruence] and [lia] use. *)
Ltac tidy :=
  unfold FHE.toBytes32, euint128, euint64 in *;
  repeat match goal with
    | F : accrue_frame _ _ _ _ |- _ =>
        let He := fresh "He" in
        let Hm := fresh "Hm" in
        let Hb := fresh "Hb" in
        let Hk := fresh "Hk" in
        pose proof (f_equal ethStake (af_position _ _ _ _ F)) as He;
        pose proof (f_equal musdtStake (af_position _ _ _ _ F)) as Hm;
        pose proof (af_balance _ _ _ _ F) as Hb;
        pose proof (af_token _ _ _ _ F) as Hk;
        rewrite accrue_position_eth in He;
        rewrite accrue_position_musdt in Hm;
        cbn in He, Hm, Hb, Hk;
        revert F
    end;
  intros;
  repeat match goal with
    | H : negb _ = true |- _ => apply negb_true_iff in H
    | H : negb _ = false |- _ => apply negb_false_iff in H
    | H : _ || _ = false |- _ => apply orb_false_iff in H; destruct H
    | H : _ && _ = true |- _ => apply andb_true_iff in H; destruct H
    | H : Some _ = Some _ |- _ => inversion H; subst; clear H
    | H : (_, _) = (_, _) |- _ => inversion H; subst; clear H
    | H1 : ?a = Some ?x, H2 : ?a = Some ?y |- _ =>
        assert (x = y) by congruence; subst; clear H2
    end.

(** C5: every mutating call is atomic.  Whenever a call fails the world it
    leaves, hence the caller's whole position and every permission grant,
    is the world it started from.  In particular a withdrawal of more than
    the attested stake fails with [InvalidAmount], and a withdrawal whose
    value transfer does not complete fails with [TransferFailed]. *)
Theorem failed_calls_change_nothing (c : Call) (e : Env) (w : World T)
    (r : Result (option euint128)) (w' : World T) :
  execute c e w = (r, w') ->
  (forall err, r = Revert err -> w' = w) /\
  (forall amount clear proof attested,
     c = CallWithdrawEth amount clear proof ->
     lastUpdated (stakes w (sender e)) <= timestamp e ->
     checkSignatures [ethStake (stakes w (sender e))] clear proof = true ->
     abi_decode_uint256 clear = Some attested ->
     attested < amount ->
     r = Revert InvalidAmount /\ w' = w) /\
  (forall amount clear proof attested,
     c = CallWithdrawEth amount clear proof ->
     lastUpdated (stakes w (sender e)) <= timestamp e ->
     FHE.isInitialized (ethStake (stakes w (sender e))) = true ->
     checkSignatures [ethStake (stakes w (sender e))] clear proof = true ->
     abi_decode_uint256 clear = Some attested ->
     0 < amount <= attested ->
     amount <= uint128_max ->
     accepts_value e = false \/ balance w < amount ->
     r = Revert TransferFailed /\ w' = w).
Proof.
  intros Hx. split; [| split].
  - intros err ->. eapply execute_reverted; eauto.
  - intros amount clear proof attested -> Ht Hsig Hdec Hgt. revert Hx.
    exec; intros Hx; inversion Hx; subst; clear Hx; tidy.
    all: try (split; reflexivity).
    all: try lia.
    all: congruence.
  - intros amount clear proof attested -> Ht Hinit Hsig Hdec Ha Hmax Hfail.
    revert Hx.
    exec; intros Hx; inversion Hx; subst; clear Hx; tidy.
    all: try (split; reflexivity).
    all: try lia.
    all: try congruence.
    all: destruct Hfail; [congruence | lia].
Qed.

(** ** Deposits *)

(** C6, as the code has it: a deposit of asset-1 of zero, or of more than
    a 128-bit confidential value holds, is rejected with [InvalidAmount]
    and changes nothing.  A deposit of asset-2 carries an encrypted amount
    that the ledger cannot inspect: it is never rejected with
    [InvalidAmount], and it is accepted whatever the amount is, an
    encrypted zero included, as soon as the coprocessor validates the input
    and the token carries out the transfer; the position is then stamped
    and the stake is an initialized value, the old stake plus the amount
    the token moved. *)
Theorem deposit_amount_guards (e : Env) (w : World T) :
  (forall value,
     value = 0 \/ uint128_max < value ->
     execute (CallStakeEth value) e w = (Revert InvalidAmount, w)) /\
  (forall encryptedAmount inputProof,
     fst (execute (CallStakeMusdt encryptedAmount inputProof) e w)
     <> Revert InvalidAmount) /\
  (forall encryptedAmount inputProof validated tok' transferred,
     lastUpdated (stakes w (sender e)) = 0 \/
     lastUpdated (stakes w (sender e)) <= timestamp e ->
     fromExternal encryptedAmount inputProof = Some validated ->
     confidentialTransferFrom (erc (musdt w)) (this e) (sender e) (this e)
                              validated = Some (tok', transferred) ->
     exists w',
       execute (CallStakeMusdt encryptedAmount inputProof) e w
       = (Ok None, w') /\
       erc (musdt w') = tok' /\
       lastUpdated (stakes w' (sender e)) = uint64 (timestamp e) /\
       FHE.isInitialized (musdtStake (stakes w' (sender e))) = true /\
       plain (musdtStake (stakes w' (sender e)))
       = uint128 (plain (musdtStake (stakes w (sender e)))
                  + plain transferred)).
Proof.
  split; [| split].
  - intros value Hv. exec; try reflexivity; tidy; lia.
  - intros enc proof. exec; discriminate.
  - intros enc proof validated tok' transferred Hlu Hin Htr.
    destruct (accrue_ok e (sender e) w Hlu) as (w1 & Hacc & F).
    pose proof (af_token _ _ _ _ F) as Hk.
    pose proof (f_equal musdtStake (af_position _ _ _ _ F)) as Hm.
    rewrite accrue_position_musdt in Hm.
    unfold_ops. rewrite Hacc. norm. rewrite Hin. norm.
    rewrite Hk, Htr. norm. rewrite Hm.
    destruct (FHE.isInitialized (musdtStake (stakes w (sender e)))) eqn:Hi;
      norm; eexists; (split; [reflexivity|]); norm;
      (split; [reflexivity|]); (split; [reflexivity|]);
      (split; [reflexivity|]).
    + now rewrite plain_add, !amount_of_decrypt, plain_asEuint128_e.
    + rewrite plain_asEuint128_e, (plain_uninitialized _ Hi).
      pose proof (plain_range transferred).
      unfold uint128. rewrite Z.mod_small; lia.
Qed.

(** C8: a successful deposit of asset-2 adds to the caller's stake the
    amount the token's [confidentialTransferFrom] returned, whatever amount
    was requested: the new stake is the old one plus the transferred
    amount in the 128-bit domain, so a clamped transfer raises the stake by
    the clamped amount only. *)
Theorem stakeMusdt_adds_transferred (e : Env) (w : World T)
    (encryptedAmount : handle) (inputProof : bytes)
    (v : option euint128) (w' : World T) :
  execute (CallStakeMusdt encryptedAmount inputProof) e w = (Ok v, w') ->
  exists validated tok' transferred,
    fromExternal encryptedAmount inputProof = Some validated /\
    confidentialTransferFrom (erc (musdt w)) (this e) (sender e) (this e)
                             validated = Some (tok', transferred) /\
    let old := musdtStake (stakes w (sender e)) in
    let new := musdtStake (stakes w' (sender e)) in
    new = (if FHE.isInitialized old
           then FHE.add old (FHE.asEuint128_e transferred)
           else FHE.asEuint128_e transferred) /\
    plain new = wrap Uint128 (plain old + plain transferred) /\
    (plain old + plain transferred < 2 ^ 128 ->
     plain new = plain old + plain transferred).
Proof.
  exec; intros Hx; inversion Hx; subst; clear Hx; tidy.
  all: rewrite Hk in *; norm; rewrite ?Hm in *; try congruence.
  all: match goal with
       | H : confidentialTransferFrom _ _ _ _ ?a = Some (?b, ?c) |- _ =>
           exists a, b, c
       end.
  all: split; [reflexivity|]; split; [assumption|]; split; [reflexivity|].
  all: match goal with
       | |- context [plain ?a + plain ?b] =>
           pose proof (plain_range a); pose proof (plain_range b)
       end.
  - match goal with
    | |- plain ?n = ?rhs /\ _ => assert (Hp : plain n = rhs)
    end.
    { now rewrite plain_add, !amount_of_decrypt, plain_asEuint128_e. }
    split; [exact Hp|]. intros. rewrite Hp. apply wrap_small. simpl width. lia.
  - rewrite (plain_uninitialized _ Heqb) in *.
    rewrite plain_asEuint128_e, Z.add_0_l.
    split; [symmetry; apply wrap_small; simpl width; lia | reflexivity].
Qed.

(** ** Reachable worlds *)

Lemma reachable_clock c (w : World T) : reachable c w -> 0 <= c.
Proof. induction 1; lia. Qed.

(** No position is stamped later than the latest block. *)
Lemma reachable_lastUpdated c (w : World T) :
  reachable c w -> forall u, 0 <= lastUpdated (stakes w u) <= c.
Proof.
  induction 1 as [c w Hz Hc | c w call e r w' Hr IH Hle Hx]; intros u.
  - rewrite Hz. cbn. lia.
  - pose proof (reachable_clock _ _ Hr).
    pose proof (uint64_range (timestamp e)).
    pose proof (uint64_le (timestamp e)).
    specialize (IH u).
    destruct (execute_stamp _ _ _ _ _ u Hx) as [-> | ->]; lia.
Qed.

(** C10: [syncRewards] has no error path.  In every world the ledger can
    reach, at every later timestamp and for every caller, it succeeds and
    returns the caller's [pendingRewards] handle; on a position that was
    never touched it returns the uninitialized handle and only sets
    [lastUpdated] to the current timestamp. *)
Theorem syncRewards_always_succeeds (c : Z) (w : World T) (e : Env) :
  reachable c w ->
  c <= timestamp e ->
  exists h w',
    execute CallSyncRewards e w = (Ok (Some h), w') /\
    h = pendingRewards (stakes w' (sender e)) /\
    (stakes w (sender e) = StakeInfo_zero ->
     h = HNull /\
     stakes w' (sender e)
     = mkStakeInfo HNull HNull HNull (uint64 (timestamp e)) /\
     (timestamp e < 2 ^ 64 ->
      lastUpdated (stakes w' (sender e)) = timestamp e)).
Proof.
  intros Hr Hle.
  pose proof (reachable_lastUpdated _ _ Hr (sender e)) as Hlu.
  pose proof (reachable_clock _ _ Hr) as Hc.
  destruct (accrue_ok e (sender e) w ltac:(lia)) as (w1 & Hacc & F).
  unfold_ops. rewrite Hacc. norm.
  do 2 eexists. split; [reflexivity|]. norm. split; [reflexivity|].
  intros Hz. rewrite (af_position _ _ _ _ F), Hz, accrue_position_zero.
  cbn. repeat split. intros. apply uint64_small. lia.
Qed.

(** ** What one accrual adds *)

Lemma plain_totalInterest eth musdt elapsed :
  plain
    (FHE.add
       (FHE.div (FHE.div (FHE.mul eth elapsed) SECONDS_PER_DAY) 1000000000000)
       (FHE.div (FHE.mul musdt elapsed)
                (SECONDS_PER_DAY * PERCENT_DENOMINATOR)))
  = interest_wrapped (plain eth) (plain musdt) (elapsed + 1).
Proof.
  unfold interest_wrapped.
  rewrite plain_add, !amount_of_decrypt.
  repeat first [ rewrite plain_div by reflexivity
               | rewrite amount_of_decrypt
               | rewrite plain_mul ].
  replace (elapsed + 1 - 1) with elapsed by lia.
  reflexivity.
Qed.

Lemma accrue_position_pending now i :
  0 <= lastUpdated i <= now ->
  now < 2 ^ 64 ->
  decrypt (pendingRewards (accrue_position now i))
  = pending_wrapped (view i) now.
Proof.
  intros Hlu Hnow.
  unfold accrue_position, pending_wrapped, pending_after, view.
  cbn [pos_lastUpdated pos_pending pos_eth pos_musdt].
  destruct (lastUpdated i =? 0) eqn:H0; [reflexivity|].
  rewrite (uint64_small (now - lastUpdated i)) by lia.
  destruct (now - lastUpdated i =? 0) eqn:H1.
  { replace (now - lastUpdated i <=? 1) with true by lia. reflexivity. }
  rewrite (uint64_small (now - lastUpdated i - 1)) by lia.
  destruct (now - lastUpdated i - 1 =? 0) eqn:H2.
  { replace (now - lastUpdated i <=? 1) with true by lia. reflexivity. }
  replace (now - lastUpdated i <=? 1) with false by lia.
  cbn [pendingRewards]. rewrite !amount_of_decrypt.
  destruct (FHE.isInitialized (pendingRewards i)) eqn:Hp.
  - rewrite (decrypt_initialized _ Hp).
    rewrite decrypt_initialized by reflexivity.
    rewrite plain_add, !amount_of_decrypt, plain_totalInterest.
    now replace (now - lastUpdated i - 1 + 1) with (now - lastUpdated i) by lia.
  - rewrite (decrypt_uninitialized _ Hp).
    rewrite decrypt_initialized by reflexivity.
    rewrite plain_totalInterest.
    now replace (now - lastUpdated i - 1 + 1) with (now - lastUpdated i) by lia.
Qed.




(** ** Claiming *)

(** C1, as the code has it: after accrual, an uninitialized
    [pendingRewards] makes [claimRewards] fail with [NoRewardsAvailable];
    an initialized one is reset to an initialized encrypted zero, and the
    amount the ledger has the token mint to the caller is the 64-bit
    narrowing of the pre-claim [pendingRewards], which is that value exactly
    whenever it fits the 64 bits of the reward asset. *)
Theorem claimRewards_mints_narrowed (e : Env) (w : World T) :
  lastUpdated (stakes w (sender e)) <= timestamp e ->
  let pre :=
    pendingRewards (stakes (snd (_accrue e (sender e) w)) (sender e)) in
  (FHE.isInitialized pre = false ->
   execute CallClaimRewards e w = (Revert NoRewardsAvailable, w)) /\
  (FHE.isInitialized pre = true ->
   forall tok' minted,
     this e = controller (musdt w) \/ this e = stakingContract (musdt w) ->
     _mint (erc (musdt w)) (sender e) (FHE.asEuint64_e pre)
     = Some (tok', minted) ->
     exists w',
       execute CallClaimRewards e w = (Ok None, w') /\
       pendingRewards (stakes w' (sender e)) = FHE.asEuint128 0 /\
       decrypt (pendingRewards (stakes w' (sender e))) = Some 0 /\
       erc (musdt w') = tok' /\
       plain (FHE.asEuint64_e pre) = plain pre mod 2 ^ 64 /\
       (plain pre < 2 ^ 64 -> plain (FHE.asEuint64_e pre) = plain pre)).
Proof.
  intros Hlu.
  destruct (accrue_ok e (sender e) w (or_intror Hlu)) as (w1 & Hacc & F).
  cbv zeta. rewrite Hacc. cbn [snd].
  pose proof (af_token _ _ _ _ F) as Hk.
  split.
  - intros Hi. unfold_ops. rewrite Hacc. norm. now rewrite Hi.
  - intros Hi tok' minted Hauth Hmint.
    unfold_ops. rewrite Hacc. norm. rewrite Hi. norm.
    rewrite Hk, Hmint.
    replace (negb (this e =? controller (musdt w))
             && negb (this e =? stakingContract (musdt w))) with false
      by (destruct Hauth as [<- | <-]; rewrite Z.eqb_refl;
          [reflexivity | now rewrite andb_false_r]).
    norm. eexists. split; [reflexivity|]. norm.
    repeat split.
    intros Hfit. rewrite plain_asEuint64_e. apply Z.mod_small.
    pose proof (plain_range (pendingRewards (stakes w1 (sender e)))). lia.
Qed.

(** ** A day of interest *)

Lemma sync_runs_accrual e (w : World T) :
  lastUpdated (stakes w (sender e)) <= timestamp e ->
  exists w',
    execute CallSyncRewards e w
    = (Ok (Some (pendingRewards
                   (accrue_position (timestamp e) (stakes w (sender e))))),
       w') /\
    stakes w' (sender e) = accrue_position (timestamp e) (stakes w (sender e)).
Proof.
  intros Hlu.
  destruct (accrue_ok e (sender e) w (or_intror Hlu)) as (w1 & Hacc & F).
  unfold_ops. rewrite Hacc. norm. rewrite (af_position _ _ _ _ F).
  eexists. split; [reflexivity|]. norm. apply (af_position _ _ _ _ F).
Qed.

(** Where [_accrue] leaves [lastUpdated]: at now, except when exactly one
    second has passed since a non-zero [lastUpdated]. *)
Lemma accrue_position_lastUpdated now i :
  0 <= lastUpdated i <= now ->
  now < 2 ^ 64 ->
  lastUpdated (accrue_position now i)
  = if (negb (lastUpdated i =? 0)) && (now - lastUpdated i =? 1)
    then lastUpdated i else now.
Proof.
  intros Hlu Hnow. unfold accrue_position.
  destruct (lastUpdated i =? 0) eqn:H0; cbn [negb andb].
  { cbn. apply uint64_small. lia. }
  rewrite (uint64_small (now - lastUpdated i)) by lia.
  destruct (now - lastUpdated i =? 0) eqn:H1.
  { replace (now - lastUpdated i =? 1) with false by lia. lia. }
  rewrite (uint64_small (now - lastUpdated i - 1)) by lia.
  destruct (now - lastUpdated i - 1 =? 0) eqn:H2.
  { now replace (now - lastUpdated i =? 1) with true by lia. }
  replace (now - lastUpdated i =? 1) with false by lia.
  cbn. apply uint64_small. lia.
Qed.

Lemma sync_lastUpdated e (w : World T) :
  0 <= lastUpdated (stakes w (sender e)) <= timestamp e ->
  timestamp e < 2 ^ 64 ->
  exists h w',
    execute CallSyncRewards e w = (Ok (Some h), w') /\
    lastUpdated (stakes w' (sender e))
    = if negb (lastUpdated (stakes w (sender e)) =? 0)
         && (timestamp e - lastUpdated (stakes w (sender e)) =? 1)
      then lastUpdated (stakes w (sender e)) else timestamp e.
Proof.
  intros Hlu Hnow.
  destruct (sync_runs_accrual e w) as (w' & Hx & Hp); [lia|].
  do 2 eexists. split; [exact Hx|].
  rewrite Hp. now apply accrue_position_lastUpdated.
Qed.

Lemma stakeEth_fresh e (w : World T) value :
  stakes w (sender e) = StakeInfo_zero ->
  0 < value <= uint128_max ->
  exists w',
    execute (CallStakeEth value) e w = (Ok None, w') /\
    stakes w' (sender e)
    = mkStakeInfo (FHE.asEuint128 (uint128 value)) HNull HNull
                  (uint64 (timestamp e)).
Proof.
  intros Hz Hv. unfold_ops.
  destruct ((value =? 0) || (value >? uint128_max)) eqn:Hg;
    [apply orb_true_iff in Hg; lia |].
  match goal with
  | |- context [_accrue ?e ?u ?w0] =>
      destruct (accrue_ok e u w0) as (w1 & Hacc & F);
      [left; cbn; now rewrite Hz |]
  end.
  pose proof (uint64_range (timestamp e)).
  rewrite Hacc. norm. rewrite (af_position _ _ _ _ F). norm.
  rewrite Hz, accrue_position_zero. norm.
  eexists. split; [reflexivity|]. norm. reflexivity.
Qed.

Lemma stakeMusdt_fresh e (w : World T) enc proof validated tok' transferred :
  stakes w (sender e) = StakeInfo_zero ->
  fromExternal enc proof = Some validated ->
  confidentialTransferFrom (erc (musdt w)) (this e) (sender e) (this e)
                           validated = Some (tok', transferred) ->
  exists w',
    execute (CallStakeMusdt enc proof) e w = (Ok None, w') /\
    stakes w' (sender e)
    = mkStakeInfo HNull (FHE.asEuint128_e transferred) HNull
                  (uint64 (timestamp e)).
Proof.
  intros Hz Hin Htr. unfold_ops.
  destruct (accrue_ok e (sender e) w) as (w1 & Hacc & F);
    [left; now rewrite Hz |].
  rewrite Hacc. norm. rewrite Hin. norm.
  rewrite (af_token _ _ _ _ F), Htr. norm.
  rewrite (af_position _ _ _ _ F), Hz, accrue_position_zero. norm.
  eexists. split; [reflexivity|]. norm. reflexivity.
Qed.

(** C2, as the code has it: for a position whose only activity is one
    stake, a [syncRewards] 86,401 seconds later (a full day after the one
    second the accrual leaves out) yields the full nominal daily interest:
    exactly 1,000,000 reward base units for a stake of [10^18] base units
    of asset-1, and exactly 10,000 for 1,000,000 base units of asset-2. *)
Theorem full_day_interest (e0 e1 : Env) (w : World T) :
  sender e1 = sender e0 ->
  stakes w (sender e0) = StakeInfo_zero ->
  0 < timestamp e0 ->
  timestamp e1 = timestamp e0 + 86401 ->
  timestamp e1 < 2 ^ 64 ->
  (exists w0 w1 h,
     execute (CallStakeEth (10 ^ 18)) e0 w = (Ok None, w0) /\
     execute CallSyncRewards e1 w0 = (Ok (Some h), w1) /\
     pendingRewards (stakes w1 (sender e0)) = h /\
     decrypt h = Some 1000000) /\
  (forall enc proof validated tok' transferred,
     fromExternal enc proof = Some validated ->
     confidentialTransferFrom (erc (musdt w)) (this e0) (sender e0) (this e0)
                              validated = Some (tok', transferred) ->
     plain transferred = 1000000 ->
     exists w0 w1 h,
       execute (CallStakeMusdt enc proof) e0 w = (Ok None, w0) /\
       execute CallSyncRewards e1 w0 = (Ok (Some h), w1) /\
       pendingRewards (stakes w1 (sender e0)) = h /\
       decrypt h = Some 10000).
Proof.
  intros Hs Hz Ht0 Ht1 Hmax.
  assert (Hu : uint64 (timestamp e0) = timestamp e0)
    by (apply uint64_small; lia).
  split.
  - destruct (stakeEth_fresh e0 w (10 ^ 18) Hz) as (w0 & Hx0 & Hp0);
      [unfold uint128_max; lia |].
    rewrite Hu in Hp0.
    destruct (sync_runs_accrual e1 w0) as (w1 & Hx1 & Hp1);
      [rewrite Hs, Hp0; cbn; lia |].
    rewrite Hs in Hx1, Hp1.
    exists w0, w1. eexists. split; [exact Hx0|]. split; [exact Hx1|].
    split; [now rewrite Hp1|].
    rewrite accrue_position_pending by (rewrite ?Hp0; cbn; lia).
    rewrite Hp0, Ht1. unfold pending_wrapped, pending_after, view.
    cbn [pos_lastUpdated pos_pending pos_eth pos_musdt ethStake musdtStake
         pendingRewards lastUpdated].
    replace (timestamp e0 =? 0) with false by lia.
    replace (timestamp e0 + 86401 - timestamp e0) with 86401 by lia.
    reflexivity.
  - intros enc proof validated tok' transferred Hin Htr Hpl.
    destruct (stakeMusdt_fresh e0 w enc proof _ _ _ Hz Hin Htr)
      as (w0 & Hx0 & Hp0).
    rewrite Hu in Hp0.
    destruct (sync_runs_accrual e1 w0) as (w1 & Hx1 & Hp1);
      [rewrite Hs, Hp0; cbn; lia |].
    rewrite Hs in Hx1, Hp1.
    exists w0, w1. eexists. split; [exact Hx0|]. split; [exact Hx1|].
    split; [now rewrite Hp1|].
    rewrite accrue_position_pending by (rewrite ?Hp0; cbn; lia).
    rewrite Hp0, Ht1. unfold pending_wrapped, pending_after, view.
    cbn [pos_lastUpdated pos_pending pos_eth pos_musdt ethStake musdtStake
         pendingRewards lastUpdated].
    replace (timestamp e0 =? 0) with false by lia.
    replace (timestamp e0 + 86401 - timestamp e0) with 86401 by lia.
    rewrite (decrypt_initialized (FHE.asEuint128_e transferred))
      by reflexivity.
    rewrite plain_asEuint128_e, Hpl. reflexivity.
Qed.
(** ** Where a call leaves [lastUpdated] *)

(** C4, as the code has it: every successful stake, withdrawal and claim
    leaves the caller's [lastUpdated] at the time of the call, and so does
    every successful [syncRewards] but one.  A [syncRewards] made exactly
    one second after a non-zero [lastUpdated] finds nothing to add once the
    current second is excluded, returns before the stamp, and leaves the
    whole position, [lastUpdated] included, as it was. *)
Theorem lastUpdated_after_call (c : Call) (e : Env) (w : World T)
    (v : option euint128) (w' : World T) :
  execute c e w = (Ok v, w') ->
  0 <= lastUpdated (stakes w (sender e)) <= timestamp e ->
  timestamp e < 2 ^ 64 ->
  let before := lastUpdated (stakes w (sender e)) in
  (c = CallSyncRewards /\ before <> 0 /\ timestamp e = before + 1 ->
   stakes w' (sender e) = stakes w (sender e) /\
   lastUpdated (stakes w' (sender e)) = before) /\
  (c <> CallSyncRewards \/ before = 0 \/ timestamp e <> before + 1 ->
   lastUpdated (stakes w' (sender e)) = timestamp e).
Proof.
  intros Hx Hlu Hnow before. subst before.
  assert (Hsync : c = CallSyncRewards ->
                  stakes w' (sender e)
                  = accrue_position (timestamp e) (stakes w (sender e))).
  { intros ->.
    destruct (sync_runs_accrual e w (proj2 Hlu)) as (w2 & Hy & Hpos).
    rewrite Hx in Hy. now inversion Hy; subst. }
  split.
  - intros (Hc & Hnz & Hone). rewrite (Hsync Hc).
    assert (Hq : accrue_position (timestamp e) (stakes w (sender e))
                 = stakes w (sender e)).
    { unfold accrue_position.
      replace (lastUpdated (stakes w (sender e)) =? 0) with false by lia.
      rewrite (uint64_small (timestamp e - lastUpdated (stakes w (sender e))))
        by lia.
      replace (timestamp e - lastUpdated (stakes w (sender e)) =? 0)
        with false by lia.
      rewrite (uint64_small
                 (timestamp e - lastUpdated (stakes w (sender e)) - 1))
        by lia.
      replace (timestamp e - lastUpdated (stakes w (sender e)) - 1 =? 0)
        with true by lia.
      reflexivity. }
    now rewrite Hq.
  - intros Hcase.
    assert (Hdec : c = CallSyncRewards \/ c <> CallSyncRewards)
      by (destruct c; auto; right; discriminate).
    destruct Hdec as [Hc | Hc].
    + rewrite (Hsync Hc), accrue_position_lastUpdated by assumption.
      destruct Hcase as [Hn | [H0 | Hne]]; [contradiction | |].
      * replace (lastUpdated (stakes w (sender e)) =? 0) with true by lia.
        reflexivity.
      * replace (timestamp e - lastUpdated (stakes w (sender e)) =? 1)
          with false by lia.
        now rewrite andb_false_r.
    + rewrite (execute_stamps_unless_sync c e w v w' Hx Hc).
      apply uint64_small. lia.
Qed.

End Properties.

(** * The ledger on concrete inputs *)

Import Reference.

(** ** The scenarios of the repository's test suite

    The three cases of the suite for the ledger.  Hardhat mines the
    transaction that follows [time.increase(86400)] one second after the
    day has passed, and every later transaction one second after the one
    before. *)

Example test_eth_rewards_and_claim :
  let day := 1000 + 1 + 86400 in
  let w := run [(CallSyncRewards, at_time alice day)] (after_stake (10 ^ 18)) in
  let w' := run [(CallClaimRewards, at_time alice (day + 1))] w in
  decrypt (pendingRewards (stakes w alice)) = Some 1000000 /\
  fst (execute CallClaimRewards (at_time alice (day + 1)) w) = Ok None /\
  balanceOf (erc (musdt w')) alice = 1000000.
Proof. vm_compute. repeat split. Qed.

Example test_musdt_percentage :
  let day := 1000 + 1 + 86400 in
  let w := run [(CallSyncRewards, at_time alice day)]
               (after_musdt_stake 2000000 1000000) in
  decrypt (musdtStake (stakes w alice)) = Some 1000000 /\
  decrypt (pendingRewards (stakes w alice)) = Some 10000.
Proof. vm_compute. repeat split. Qed.

Example test_withdraw_half :
  let w := after_stake (5 * 10 ^ 17) in
  let attested := abi_encode_uint256 (5 * 10 ^ 17) in
  let r := execute (CallWithdrawEth (25 * 10 ^ 16) attested [1])
                   (at_time alice 1001) w in
  fst r = Ok None /\
  decrypt (ethStake (stakes (snd r) alice)) = Some (25 * 10 ^ 16) /\
  balance (snd r) = 25 * 10 ^ 16.
Proof. vm_compute. repeat split. Qed.

(** C1, counterexample: [alice] stakes [2^100] wei and claims 2,000,001
    seconds later.  After accrual her [pendingRewards] is initialized and
    holds 29,343,763,894,171,976,886, which does not fit 64 bits; the call
    succeeds, and her reward-asset balance rises by 10,897,019,820,462,425,270
    only. *)
Lemma claim_mints_less_than_pending :
  let w := after_stake (2 ^ 100) in
  let e := at_time alice 2001001 in
  let pre := pendingRewards (stakes (snd (_accrue e alice w)) alice) in
  let w' := snd (execute CallClaimRewards e w) in
  fst (execute CallClaimRewards e w) = Ok None /\
  FHE.isInitialized pre = true /\
  plain pre = 29343763894171976886 /\
  balanceOf (erc (musdt w')) alice - balanceOf (erc (musdt w)) alice
  = 10897019820462425270 /\
  balanceOf (erc (musdt w')) alice - balanceOf (erc (musdt w)) alice
  <> plain pre.
Proof. vm_compute. repeat split; discriminate. Qed.

(** A day and a second after staking [10^18] wei, [alice] claims and holds
    exactly the 1,000,000 units that were pending. *)
Lemma claimRewards_mints_narrowed_witness :
  let w := after_stake (10 ^ 18) in
  let e := at_time alice 87401 in
  lastUpdated (stakes w (sender e)) <= timestamp e /\
  exists w',
    execute CallClaimRewards e w = (Ok None, w') /\
    decrypt (pendingRewards (stakes w' alice)) = Some 0 /\
    balanceOf (erc (musdt w')) alice = 1000000.
Proof.
  cbv zeta. split; [vm_compute; discriminate |].
  destruct (claimRewards_mints_narrowed
              (at_time alice 87401) (after_stake (10 ^ 18)))
    as [_ Hclaim]; [vm_compute; discriminate |].
  destruct (Hclaim eq_refl
              (credit_to (mkBalances no_balances) alice 1000000)
              (FHE.asEuint64_e
                 (pendingRewards
                    (stakes (snd (_accrue (at_time alice 87401) alice
                                          (after_stake (10 ^ 18)))) alice))))
    as (w' & Hx & _ & Hzero & Htok & _).
  - right. reflexivity.
  - vm_compute. reflexivity.
  - exists w'. split; [exact Hx|]. split; [exact Hzero|].
    rewrite Htok. reflexivity.
Defined.

(** C2, counterexample: exactly 86,400 seconds after a single stake,
    [syncRewards] yields 999,988 for a stake of [10^18] base units of
    asset-1 and 9,999 for a stake of 1,000,000 base units of asset-2. *)
Lemma exact_day_yields_less :
  let sync := (CallSyncRewards, at_time alice (1000 + 86400)) in
  let w1 := run [sync] (after_stake (10 ^ 18)) in
  let w2 := run [sync] (after_musdt_stake 2000000 1000000) in
  plain (ethStake (stakes w1 alice)) = 10 ^ 18 /\
  decrypt (pendingRewards (stakes w1 alice)) = Some 999988 /\
  decrypt (pendingRewards (stakes w1 alice)) <> Some 1000000 /\
  plain (musdtStake (stakes w2 alice)) = 1000000 /\
  decrypt (pendingRewards (stakes w2 alice)) = Some 9999 /\
  decrypt (pendingRewards (stakes w2 alice)) <> Some 10000.
Proof. vm_compute. repeat split; discriminate. Qed.

(** The two scenarios on the reference deployment, staked at time 1000
    and synced at time 87,401. *)
Lemma full_day_interest_witness :
  let e0 := at_time alice 1000 in
  let e1 := at_time alice 87401 in
  let w := genesis (funded alice 2000000) in
  (sender e1 = sender e0 /\ stakes w (sender e0) = StakeInfo_zero /\
   0 < timestamp e0 /\ timestamp e1 = timestamp e0 + 86401 /\
   timestamp e1 < 2 ^ 64) /\
  (exists w0 w1 h,
     execute (CallStakeEth (10 ^ 18)) e0 w = (Ok None, w0) /\
     execute CallSyncRewards e1 w0 = (Ok (Some h), w1) /\
     decrypt h = Some 1000000) /\
  (exists w0 w1 h,
     execute (stake_request 1000000) e0 w = (Ok None, w0) /\
     execute CallSyncRewards e1 w0 = (Ok (Some h), w1) /\
     decrypt h = Some 10000).
Proof.
  cbv zeta.
  assert (Hyp : sender (at_time alice 87401) = sender (at_time alice 1000) /\
                stakes (genesis (funded alice 2000000))
                       (sender (at_time alice 1000)) = StakeInfo_zero /\
                0 < timestamp (at_time alice 1000) /\
                timestamp (at_time alice 87401)
                = timestamp (at_time alice 1000) + 86401 /\
                timestamp (at_time alice 87401) < 2 ^ 64)
    by (vm_compute; repeat split; discriminate).
  split; [exact Hyp|].
  destruct Hyp as (H1 & H2 & H3 & H4 & H5).
  destruct (full_day_interest (at_time alice 1000) (at_time alice 87401)
              (genesis (funded alice 2000000)) H1 H2 H3 H4 H5)
    as [(w0 & w1 & h & Ha & Hb & _ & Hc) Hmusdt].
  split.
  - exists w0, w1, h. auto.
  - destruct (Hmusdt (HInput Uint64 1000000 1) [1]
                (HInput Uint64 1000000 1)
                (credit_to (debit_from (mkBalances (funded alice 2000000))
                                       alice 1000000) ledger 1000000)
                (HTrivial Uint64 1000000) eq_refl eq_refl eq_refl)
      as (v0 & v1 & g & Ha' & Hb' & _ & Hc').
    exists v0, v1, g. auto.
Defined.



(** C4, counterexample: [alice] stakes at time 1000 and calls
    [syncRewards] at time 1001.  The call succeeds on a position that was
    touched before, adds no interest, and leaves [lastUpdated] at 1000, not
    at the time of the call. *)
Lemma sync_after_one_second_keeps_lastUpdated :
  let w := after_stake (10 ^ 18) in
  let e := at_time alice 1001 in
  let r := execute CallSyncRewards e w in
  lastUpdated (stakes w alice) = 1000 /\
  timestamp e = 1001 /\
  fst r = Ok (Some HNull) /\
  lastUpdated (stakes (snd r) alice) = 1000 /\
  lastUpdated (stakes (snd r) alice) <> timestamp e.
Proof. vm_compute. repeat split; discriminate. Qed.

(** The second that such a sync leaves unstamped is not lost: the sync
    that follows at 1002 sees two seconds elapsed and adds the interest of
    one, 11 units, where a stamp at 1001 (here by a further stake of one
    wei) leaves the sync at 1002 with nothing to add. *)
Example excluded_second_is_counted_later :
  let w := after_stake (10 ^ 18) in
  let sync t := (CallSyncRewards, at_time alice t) in
  let stake t := (CallStakeEth 1, at_time alice t) in
  pending_of (run [sync 1001; sync 1002] w) alice = 11 /\
  pending_of (run [stake 1001; sync 1002] w) alice = 0.
Proof. vm_compute. split; reflexivity. Qed.

(** After a stake at time 1000: a sync at 1001 leaves the position as it
    was, a sync at 1002 and a further stake at 1001 stamp it. *)
Lemma lastUpdated_after_call_witness :
  let w := after_stake (10 ^ 18) in
  let after c t := snd (execute c (at_time alice t) w) in
  lastUpdated (stakes w alice) = 1000 /\
  execute CallSyncRewards (at_time alice 1001) w
  = (Ok (Some HNull), after CallSyncRewards 1001) /\
  stakes (after CallSyncRewards 1001) alice = stakes w alice /\
  lastUpdated (stakes (after CallSyncRewards 1001) alice) = 1000 /\
  lastUpdated (stakes (after CallSyncRewards 1002) alice) = 1002 /\
  lastUpdated (stakes (after (CallStakeEth 1) 1001) alice) = 1001.
Proof.
  cbv zeta.
  assert (H0 : lastUpdated (stakes (after_stake (10 ^ 18)) alice) = 1000)
    by (vm_compute; reflexivity).
  assert (H1 : execute CallSyncRewards (at_time alice 1001)
                       (after_stake (10 ^ 18))
               = (Ok (Some HNull),
                  snd (execute CallSyncRewards (at_time alice 1001)
                               (after_stake (10 ^ 18)))))
    by (vm_compute; reflexivity).
  assert (H2 : execute CallSyncRewards (at_time alice 1002)
                       (after_stake (10 ^ 18))
               = (Ok (Some (pendingRewards
                              (stakes (snd (execute CallSyncRewards
                                              (at_time alice 1002)
                                              (after_stake (10 ^ 18))))
                                      alice))),
                  snd (execute CallSyncRewards (at_time alice 1002)
                               (after_stake (10 ^ 18)))))
    by (vm_compute; reflexivity).
  assert (H3 : execute (CallStakeEth 1) (at_time alice 1001)
                       (after_stake (10 ^ 18))
               = (Ok None,
                  snd (execute (CallStakeEth 1) (at_time alice 1001)
                               (after_stake (10 ^ 18)))))
    by (vm_compute; reflexivity).
  assert (B1 : 0 <= lastUpdated (stakes (after_stake (10 ^ 18))
                                        (sender (at_time alice 1001)))
               <= timestamp (at_time alice 1001))
    by (vm_compute; split; discriminate).
  assert (B2 : 0 <= lastUpdated (stakes (after_stake (10 ^ 18))
                                        (sender (at_time alice 1002)))
               <= timestamp (at_time alice 1002))
    by (vm_compute; split; discriminate).
  assert (N1 : timestamp (at_time alice 1001) < 2 ^ 64)
    by (vm_compute; reflexivity).
  assert (N2 : timestamp (at_time alice 1002) < 2 ^ 64)
    by (vm_compute; reflexivity).
  split; [exact H0|]. split; [exact H1|].
  destruct (lastUpdated_after_call _ _ _ _ _ H1 B1 N1) as [Hkeep _].
  destruct (lastUpdated_after_call _ _ _ _ _ H2 B2 N2) as [_ Hsync].
  destruct (lastUpdated_after_call _ _ _ _ _ H3 B1 N1) as [_ Hstake].
  split; [| split; [| split]].
  - apply Hkeep.
    split; [reflexivity | split; [vm_compute; discriminate | reflexivity]].
  - apply Hkeep.
    split; [reflexivity | split; [vm_compute; discriminate | reflexivity]].
  - apply Hsync. right. right. vm_compute. discriminate.
  - apply Hstake. left. discriminate.
Defined.

(** With a stake of 5 wei attested: asking for 6 fails with
    [InvalidAmount]; asking for 5 from an account that refuses the transfer
    fails with [TransferFailed], although the body had already rewritten
    the position; both leave the world as it was. *)
Lemma failed_calls_change_nothing_witness :
  let w := after_stake 5 in
  let attested := abi_encode_uint256 5 in
  let refusing := mkEnv ledger alice 2000 false in
  execute (CallWithdrawEth 6 attested [1]) (at_time alice 2000) w
  = (Revert InvalidAmount, w) /\
  execute (CallWithdrawEth 5 attested [1]) refusing w
  = (Revert TransferFailed, w) /\
  snd (withdrawEth 5 attested [1] refusing w) <> w /\
  fst (execute (CallWithdrawEth 5 attested [1]) (at_time alice 2000) w)
  = Ok None.
Proof.
  cbv zeta. split; [| split; [| split]].
  - destruct (execute (CallWithdrawEth 6 (abi_encode_uint256 5) [1])
                      (at_time alice 2000) (after_stake 5)) as [r w'] eqn:Hx.
    destruct (failed_calls_change_nothing _ _ _ _ _ Hx) as (_ & Hinv & _).
    destruct (Hinv 6 (abi_encode_uint256 5) [1] 5 eq_refl) as [-> ->];
      try reflexivity; vm_compute; congruence.
  - destruct (execute (CallWithdrawEth 5 (abi_encode_uint256 5) [1])
                      (mkEnv ledger alice 2000 false) (after_stake 5))
      as [r w'] eqn:Hx.
    destruct (failed_calls_change_nothing _ _ _ _ _ Hx) as (_ & _ & Htf).
    destruct (Htf 5 (abi_encode_uint256 5) [1] 5 eq_refl) as [-> ->];
      try reflexivity; vm_compute; intuition congruence.
  - vm_compute. congruence.
  - vm_compute. reflexivity.
Defined.

(** C6, counterexample: [alice], who holds 2,000,000 units of asset-2,
    deposits an encrypted zero.  The call is not rejected: it succeeds,
    stamps her position and initializes her stake to an encrypted zero. *)
Lemma zero_musdt_deposit_is_accepted :
  let e := at_time alice 1000 in
  let w := genesis (funded alice 2000000) in
  let r := execute (stake_request 0) e w in
  plain (HInput Uint64 0 1) = 0 /\
  fst r = Ok None /\
  fst r <> Revert InvalidAmount /\
  lastUpdated (stakes w alice) = 0 /\
  lastUpdated (stakes (snd r) alice) = 1000 /\
  decrypt (musdtStake (stakes (snd r) alice)) = Some 0 /\
  snd r <> w.
Proof.
  cbv zeta. repeat split; vm_compute; congruence.
Qed.

(** The two rejected native deposits, and the encrypted zero of a holder of
    2,000,000 units, accepted. *)
Lemma deposit_amount_guards_witness :
  let e := at_time alice 1000 in
  let w := genesis (funded alice 2000000) in
  (0 = 0 \/ uint128_max < 0) /\
  (2 ^ 128 = 0 \/ uint128_max < 2 ^ 128) /\
  execute (CallStakeEth 0) e w = (Revert InvalidAmount, w) /\
  execute (CallStakeEth (2 ^ 128)) e w = (Revert InvalidAmount, w) /\
  fst (execute (stake_request 0) e w) <> Revert InvalidAmount /\
  exists w',
    execute (stake_request 0) e w = (Ok None, w') /\
    lastUpdated (stakes w' alice) = 1000 /\
    FHE.isInitialized (musdtStake (stakes w' alice)) = true /\
    plain (musdtStake (stakes w' alice)) = 0.
Proof.
  cbv zeta.
  destruct (deposit_amount_guards (at_time alice 1000)
              (genesis (funded alice 2000000)))
    as (Heth & Hmusdt & Haccepted).
  assert (H0 : 0 = 0 \/ uint128_max < 0) by (left; reflexivity).
  assert (H1 : 2 ^ 128 = 0 \/ uint128_max < 2 ^ 128)
    by (right; reflexivity).
  split; [exact H0|]. split; [exact H1|].
  split; [exact (Heth 0 H0)|]. split; [exact (Heth (2 ^ 128) H1)|].
  split; [apply Hmusdt|].
  destruct (Haccepted (HInput Uint64 0 1) [1] (HInput Uint64 0 1)
              (credit_to (debit_from (mkBalances (funded alice 2000000))
                                     alice 0) ledger 0)
              (HTrivial Uint64 0) (or_introl eq_refl) eq_refl eq_refl)
    as (w' & Hx & _ & Hl & Hi & Hp).
  change (sender (at_time alice 1000)) with alice in Hl, Hi, Hp.
  exists w'. split; [exact Hx|]. split; [exact Hl|]. split; [exact Hi|].
  rewrite Hp. reflexivity.
Defined.

(** A claim stores two values, the accrued rewards and the zero that
    replaces them; both end up shared. *)
Lemma written_values_are_shared_witness :
  let e := at_time alice 87401 in
  let w := after_stake (10 ^ 18) in
  let w' := snd (execute CallClaimRewards e w) in
  execute CallClaimRewards e w = (Ok None, w') /\
  exists new,
    written w' = new ++ written w /\
    length new = 2%nat /\
    Forall (shared ledger alice (acl w')) new.
Proof.
  cbv zeta.
  assert (Hx : execute CallClaimRewards (at_time alice 87401)
                       (after_stake (10 ^ 18))
               = (Ok None,
                  snd (execute CallClaimRewards (at_time alice 87401)
                               (after_stake (10 ^ 18)))))
    by (vm_compute; reflexivity).
  split; [exact Hx|].
  destruct (written_values_are_shared _ _ _ _ _ Hx)
    as (new & Hw & Hs & _).
  exists new. split; [exact Hw|]. split; [| exact Hs].
  assert (L1 : length (written
                         (snd (execute CallClaimRewards (at_time alice 87401)
                                       (after_stake (10 ^ 18))))) = 3%nat)
    by (vm_compute; reflexivity).
  assert (L0 : length (written (after_stake (10 ^ 18))) = 1%nat)
    by (vm_compute; reflexivity).
  rewrite Hw, length_app, L0 in L1. lia.
Defined.

(** [alice] holds 300 units and asks to stake 1000: the token transfers
    300, and her stake is 300. *)
Lemma stakeMusdt_adds_transferred_witness :
  let e := at_time alice 1000 in
  let w := genesis (funded alice 300) in
  let w' := snd (execute (stake_request 1000) e w) in
  execute (stake_request 1000) e w = (Ok None, w') /\
  plain (HInput Uint64 1000 1) = 1000 /\
  plain (musdtStake (stakes w' alice)) = 300.
Proof.
  cbv zeta.
  assert (Hx : execute (stake_request 1000) (at_time alice 1000)
                       (genesis (funded alice 300))
               = (Ok None,
                  snd (execute (stake_request 1000) (at_time alice 1000)
                               (genesis (funded alice 300)))))
    by (vm_compute; reflexivity).
  split; [exact Hx|]. split; [reflexivity|].
  destruct (stakeMusdt_adds_transferred _ _ _ _ _ _ Hx)
    as (validated & tok' & transferred & Hin & Htr & _ & Hp & _).
  change (sender (at_time alice 1000)) with alice in Hp.
  rewrite Hp.
  injection Hin as <-. injection Htr as _ <-.
  vm_compute. reflexivity.
Defined.

(** [syncRewards] on the fresh deployment, and again after a stake. *)
Lemma syncRewards_always_succeeds_witness :
  let w := genesis no_balances in
  let stake := CallStakeEth (10 ^ 18) in
  let w1 := snd (execute stake (at_time alice 1000) w) in
  (reachable 0 w /\ 0 <= 1000 /\ reachable 1000 w1 /\ 1000 <= 1001) /\
  (exists w',
     execute CallSyncRewards (at_time alice 1000) w = (Ok (Some HNull), w') /\
     stakes w' alice = mkStakeInfo HNull HNull HNull 1000) /\
  (exists h w',
     execute CallSyncRewards (at_time alice 1001) w1 = (Ok (Some h), w')).
Proof.
  cbv zeta.
  assert (Hr : reachable 0 (genesis no_balances))
    by (apply reachable_deployed; [reflexivity | discriminate]).
  assert (Ht : 0 <= 1000) by discriminate.
  assert (Hr1 : reachable 1000
                  (snd (execute (CallStakeEth (10 ^ 18)) (at_time alice 1000)
                                (genesis no_balances))))
    by (apply (reachable_call 0 (genesis no_balances) (CallStakeEth (10 ^ 18))
                 (at_time alice 1000)
                 (fst (execute (CallStakeEth (10 ^ 18)) (at_time alice 1000)
                               (genesis no_balances)))
                 _ Hr Ht);
        apply surjective_pairing).
  assert (Ht1 : 1000 <= 1001) by discriminate.
  split; [repeat split; assumption |]. split.
  - destruct (syncRewards_always_succeeds 0 (genesis no_balances)
                (at_time alice 1000) Hr Ht)
      as (h & w' & Hx & _ & Hz).
    destruct (Hz eq_refl) as (-> & Hpos & _).
    exists w'. split; [exact Hx | exact Hpos].
  - destruct (syncRewards_always_succeeds 1000 _ (at_time alice 1001) Hr1 Ht1)
      as (h & w' & Hx & _).
    exists h, w'. exact Hx.
Defined.
